(** * Digital filters for the PIC16F874 ADC pipeline

    A shallow embedding of the two firmware programs found in
    [Filtro Media Movel/moving-average-filter.c]: the moving-average
    filter (five samples, integer mean) and the median-of-three filter
    (ten samples, edge padding, three-element sort).

    Integer types follow the CCS C compiler the programs are written for:
    [int8] is an unsigned 8-bit integer, [int16] an unsigned 16-bit
    integer, and arithmetic is carried out in the width of the wider
    operand.  Values are kept in [Z] and every narrowing is written out
    with [wrap8] / [wrap16]. *)

From Stdlib Require Import ZArith List Lia Bool.
From Stdlib Require Import Sorting.Permutation Sorting.Sorted.
From stdpp Require Import base list.
Import ListNotations.

Local Open Scope Z_scope.

(** ** Machine integers *)

Module CCS.

Definition wrap8 (z : Z) : Z := z mod 2 ^ 8.
Definition wrap16 (z : Z) : Z := z mod 2 ^ 16.

(** The values an [int8] / [int16] variable can hold. *)
Definition int8 (z : Z) : Prop := 0 <= z < 2 ^ 8.
Definition int16 (z : Z) : Prop := 0 <= z < 2 ^ 16.

(** [a / b] on unsigned operands: C division truncates. *)
Definition udiv (a b : Z) : Z := Z.quot a b.

(** Number of distinct values of an [int8] loop counter: a [for] loop
    whose counter is only stepped by [i++] tests its condition at most
    this many times before the counter repeats. *)
Definition INT8_STATES : nat := 256.

End CCS.

Import CCS.

#[global] Arguments wrap8 z : simpl nomatch.
#[global] Arguments wrap16 z : simpl nomatch.
#[global] Arguments udiv a b : simpl nomatch.

(** ** The hardware seen by the firmware *)

Module Hw.

Inductive pin : Type := PIN_C0.

Inductive adc_ports : Type := ALL_ANALOG.
Inductive adc_clock : Type := ADC_CLOCK_INTERNAL.

(** One entry per built-in call, in program order. *)
Inductive event : Type :=
| EvSetupAdcPorts (m : adc_ports)
| EvSetupAdc (c : adc_clock)
| EvSetAdcChannel (ch : Z)
| EvDelayUs (n : Z)
| EvDelayMs (n : Z)
| EvReadAdc (v : Z)
| EvOutputD (v : Z)
| EvOutputLow (p : pin)
| EvOutputHigh (p : pin).

(** [adc_in k] is the [k]-th conversion result delivered by the ADC
    since reset, [adc_pos] the number of conversions consumed so far,
    [port_d] the latch of the parallel port, [pin_c0] the level driven
    on the strobe pin. *)
Record hw : Type := MkHw {
  adc_in : nat -> Z;
  adc_pos : nat;
  port_d : Z;
  pin_c0 : bool;
  trace : list event
}.

Definition hw_log (e : event) (h : hw) : hw :=
  MkHw (adc_in h) (adc_pos h) (port_d h) (pin_c0 h) (trace h ++ [e]).

Definition hw_read (h : hw) : Z * hw :=
  let v := adc_in h (adc_pos h) in
  (v, MkHw (adc_in h) (S (adc_pos h)) (port_d h) (pin_c0 h)
           (trace h ++ [EvReadAdc v])).

Definition hw_port_d (v : Z) (h : hw) : hw :=
  MkHw (adc_in h) (adc_pos h) v (pin_c0 h) (trace h ++ [EvOutputD v]).

Definition hw_pin (p : pin) (level : bool) (h : hw) : hw :=
  match p with
  | PIN_C0 =>
      MkHw (adc_in h) (adc_pos h) (port_d h) level
           (trace h ++ [if level then EvOutputHigh p else EvOutputLow p])
  end.

(** The bytes written to port D by a run of events, oldest first. *)
Fixpoint port_writes (evs : list event) : list Z :=
  match evs with
  | [] => []
  | EvOutputD v :: evs' => v :: port_writes evs'
  | _ :: evs' => port_writes evs'
  end.

(** The four built-in calls that put one byte out: lines 28-31 of the
    first program, lines 76-79 of the second. *)
Definition emission (v : Z) : list event :=
  [EvOutputD v; EvOutputLow PIN_C0; EvDelayMs 10; EvOutputHigh PIN_C0].

(** The ADC is configured with [#device adc=8]: every conversion
    result is an 8-bit value. *)
Definition adc8 (h : hw) : Prop := forall k : nat, int8 (adc_in h k).

(** The [n] samples the next [n] calls of [read_adc] deliver. *)
Definition upcoming (h : hw) (n : nat) : list Z :=
  map (fun k => adc_in h (k + adc_pos h)%nat) (seq 0 n).

Definition total (xs : list Z) : Z := fold_right Z.add 0 xs.

(** A test double for the ADC: replays [l], then reads zero. *)
Definition replay (l : list Z) : nat -> Z := fun k => nth k l 0.

Definition reset_with (samples : list Z) : hw :=
  MkHw (replay samples) 0 0 false [].

End Hw.

Import Hw.

(** ** Programs: state and failure *)

Module Prog.

(** A machine is the local variables of [main] plus the hardware. *)
Record mach (L : Type) : Type := Mach { locals : L; dev : hw }.
#[global] Arguments Mach {L} _ _.
#[global] Arguments locals {L} _.
#[global] Arguments dev {L} _.

(** A statement either fails (array access out of bounds, loop budget
    exhausted) or returns a value and the next state. *)
Definition M (S A : Type) : Type := S -> option (A * S).

Definition ret {S A} (a : A) : M S A := fun s => Some (a, s).

Definition bind {S A B} (m : M S A) (k : A -> M S B) : M S B :=
  fun s => match m s with
           | Some (a, s') => k a s'
           | None => None
           end.

Definition fail {S A} : M S A := fun _ => None.

Definition gets {S A} (f : S -> A) : M S A := fun s => Some (f s, s).

Definition modify {S} (f : S -> S) : M S unit := fun s => Some (tt, f s).

Declare Scope prog_scope.
Delimit Scope prog_scope with prog.

Notation "'let*' x ':=' m 'in' k" := (bind m (fun x => k))
  (at level 10, x name, m at level 100, k at level 200) : prog_scope.
Notation "m '>>' k" := (bind m (fun _ => k))
  (at level 90, right associativity) : prog_scope.

Local Open Scope prog_scope.

(** [while (cond) body], with a budget on the number of tests. *)
Fixpoint while_ {S} (budget : nat) (cond : M S bool) (body : M S unit)
  : M S unit :=
  match budget with
  | O => fail
  | Datatypes.S budget' =>
      let* c := cond in
      if c then body >> while_ budget' cond body else ret tt
  end.

(** [for (init; cond; step) body] over an [int8] counter. *)
Definition for_ {S} (init : M S unit) (cond : M S bool) (step : M S unit)
    (body : M S unit) : M S unit :=
  init >> while_ INT8_STATES cond (body >> step).

(** [n] rounds of the body of [while(1)]. *)
Fixpoint rounds {S} (n : nat) (body : M S unit) : M S unit :=
  match n with
  | O => ret tt
  | Datatypes.S n' => body >> rounds n' body
  end.

Section Builtins.
Context {L : Type}.

Definition on_dev (f : hw -> hw) : M (mach L) unit :=
  modify (fun s => Mach (locals s) (f (dev s))).

Definition on_locals (f : L -> L) : M (mach L) unit :=
  modify (fun s => Mach (f (locals s)) (dev s)).

Definition local {A} (f : L -> A) : M (mach L) A :=
  gets (fun s => f (locals s)).

Definition setup_adc_ports (m : adc_ports) : M (mach L) unit :=
  on_dev (hw_log (EvSetupAdcPorts m)).
Definition setup_adc (c : adc_clock) : M (mach L) unit :=
  on_dev (hw_log (EvSetupAdc c)).
Definition set_adc_channel (ch : Z) : M (mach L) unit :=
  on_dev (hw_log (EvSetAdcChannel ch)).
Definition delay_us (n : Z) : M (mach L) unit :=
  on_dev (hw_log (EvDelayUs n)).
Definition delay_ms (n : Z) : M (mach L) unit :=
  on_dev (hw_log (EvDelayMs n)).
Definition read_adc : M (mach L) Z :=
  fun s => let (v, h) := hw_read (dev s) in Some (v, Mach (locals s) h).
Definition output_d (v : Z) : M (mach L) unit :=
  on_dev (hw_port_d v).
Definition output_low (p : pin) : M (mach L) unit :=
  on_dev (hw_pin p false).
Definition output_high (p : pin) : M (mach L) unit :=
  on_dev (hw_pin p true).
End Builtins.

End Prog.

Import Prog.
Local Open Scope prog_scope.

(** ** The median of three values (second program, lines 43-50) *)

Definition median (a b c : Z) : Z :=
  let '(a, b) := if a >? b then (b, a) else (a, b) in
  let '(a, c) := if a >? c then (c, a) else (a, c) in
  let '(b, c) := if b >? c then (c, b) else (b, c) in
  b.

(** ** First program: moving average *)

Module MovingAverage.

Record vars : Type := Vars {
  sum_voltage : Z;   (* int16 *)
  avg_voltage : Z;   (* int8 *)
  i : Z              (* int8 *)
}.

Definition set_sum_voltage (v : Z) (l : vars) : vars :=
  Vars v (avg_voltage l) (i l).
Definition set_avg_voltage (v : Z) (l : vars) : vars :=
  Vars (sum_voltage l) v (i l).
Definition set_i (v : Z) (l : vars) : vars :=
  Vars (sum_voltage l) (avg_voltage l) v.

Definition state : Type := mach vars.

(** [i++] *)
Definition next_i : M state unit :=
  let* iv := local i in on_locals (set_i (wrap8 (iv + 1))).

(** Lines 21-22: one pass through the body of the [for] loop. *)
Definition sample_once : M state unit :=
  delay_ms 1 >>
  let* v := read_adc in
  let* s := local sum_voltage in
  on_locals (set_sum_voltage (wrap16 (s + v))).

(** Lines 20-23. *)
Definition sampling : M state unit :=
  for_ (on_locals (set_i 0))
       (let* iv := local i in ret (iv <? 5))
       next_i
       sample_once.

(** Lines 28-31. *)
Definition emit : M state unit :=
  (let* a := local avg_voltage in output_d a) >>
  output_low PIN_C0 >>
  delay_ms 10 >>
  output_high PIN_C0.

(** Lines 18-31: the body of [while(1)]. *)
Definition loop_body : M state unit :=
  on_locals (set_sum_voltage 0) >>
  sampling >>
  (let* s := local sum_voltage in
   on_locals (set_avg_voltage (wrap8 (udiv s 5)))) >>
  emit.

(** Lines 11-15. *)
Definition startup : M state unit :=
  setup_adc_ports ALL_ANALOG >>
  setup_adc ADC_CLOCK_INTERNAL >>
  set_adc_channel 0 >>
  delay_us 100 >>
  output_high PIN_C0.

(** [main], cut after [n] rounds of its endless loop. *)
Definition main (n : nat) : M state unit :=
  startup >> rounds n loop_body.

(** Specification state: where the machine stands at the start of pass
    [k] of the sampling loop of a round begun in [s]. *)
Definition after (s : state) (k : nat) : state :=
  let h := dev s in
  Mach (Vars (total (upcoming h k)) (avg_voltage (locals s)) (Z.of_nat k))
       (MkHw (adc_in h) (k + adc_pos h) (port_d h) (pin_c0 h)
             (trace h ++
              flat_map (fun x => [EvDelayMs 1; EvReadAdc x]) (upcoming h k))).

(** Local variables before [main] has assigned any of them. *)
Definition blank : vars := Vars 0 0 0.

End MovingAverage.

(** ** Second program: median of three with edge padding *)

Module MedianFilter.

Definition NUM_SAMPLES : Z := 10.

(** A subscript applied to [voltage], as a read or as a write. *)
Inductive access : Type :=
| Rd (idx : Z)
| Wr (idx : Z).

Definition index_of (a : access) : Z :=
  match a with Rd k => k | Wr k => k end.

(** [accesses] is a ghost variable: it records every subscript applied
    to [voltage], oldest first. *)
Record vars : Type := Vars {
  i : Z;                 (* int8 *)
  voltage : list Z;      (* int8 [NUM_SAMPLES + 2] *)
  median_value : Z;      (* int8 *)
  accesses : list access
}.

Definition set_i (v : Z) (l : vars) : vars :=
  Vars v (voltage l) (median_value l) (accesses l).
Definition set_median_value (v : Z) (l : vars) : vars :=
  Vars (i l) (voltage l) v (accesses l).

Definition state : Type := mach vars.

(** The declared size of [voltage]. *)
Definition voltage_size : Z := NUM_SAMPLES + 2.

Definition in_bounds (idx : Z) : bool := (0 <=? idx) && (idx <? voltage_size).

(** [voltage[idx]] as an rvalue; a subscript outside the array fails. *)
Definition voltage_get (idx : Z) : M state Z :=
  fun s =>
    let l := locals s in
    if in_bounds idx then
      match voltage l !! Z.to_nat idx with
      | Some v =>
          Some (v, Mach (Vars (i l) (voltage l) (median_value l)
                              (accesses l ++ [Rd idx])) (dev s))
      | None => None
      end
    else None.

(** [voltage[idx] = v]; a subscript outside the array fails. *)
Definition voltage_set (idx v : Z) : M state unit :=
  fun s =>
    let l := locals s in
    if in_bounds idx && (Z.to_nat idx <? length (voltage l))%nat then
      Some (tt, Mach (Vars (i l) (<[Z.to_nat idx := v]> (voltage l))
                           (median_value l) (accesses l ++ [Wr idx]))
                     (dev s))
    else None.

(** [i++] *)
Definition next_i : M state unit :=
  let* iv := local i in on_locals (set_i (wrap8 (iv + 1))).

(** Lines 65-68. *)
Definition sampling : M state unit :=
  for_ (on_locals (set_i 1))
       (let* iv := local i in ret (iv <=? NUM_SAMPLES))
       next_i
       (delay_ms 1 >>
        let* v := read_adc in
        let* iv := local i in
        voltage_set iv v).

(** Lines 70-71. *)
Definition padding : M state unit :=
  (let* v := voltage_get 1 in voltage_set 0 v) >>
  (let* v := voltage_get NUM_SAMPLES in voltage_set (NUM_SAMPLES + 1) v).

(** Lines 76-79. *)
Definition emit : M state unit :=
  (let* m := local median_value in output_d m) >>
  output_low PIN_C0 >>
  delay_ms 10 >>
  output_high PIN_C0.

(** Lines 74-80. *)
Definition filtering : M state unit :=
  for_ (on_locals (set_i 0))
       (let* iv := local i in ret (iv <? NUM_SAMPLES))
       next_i
       ((let* iv := local i in
         let* a := voltage_get iv in
         let* b := voltage_get (wrap8 (iv + 1)) in
         let* c := voltage_get (wrap8 (iv + 2)) in
         on_locals (set_median_value (median a b c))) >>
        emit).

(** Lines 64-80: the body of [while(1)]. *)
Definition loop_body : M state unit :=
  sampling >> padding >> filtering.

(** Lines 57-61. *)
Definition startup : M state unit :=
  setup_adc_ports ALL_ANALOG >>
  setup_adc ADC_CLOCK_INTERNAL >>
  set_adc_channel 0 >>
  delay_us 100 >>
  output_high PIN_C0.

(** [main], cut after [n] rounds of its endless loop. *)
Definition main (n : nat) : M state unit :=
  startup >> rounds n loop_body.

(** The window the sampling and padding phase builds from ten samples:
    the first and the last sample are duplicated at the edges. *)
Definition padded (xs : list Z) : list Z :=
  match xs with
  | [] => []
  | x :: _ => x :: xs ++ [List.last xs 0]
  end.

(** The median of every three neighbours of a window, left to right. *)
Fixpoint triplet_medians (w : list Z) : list Z :=
  match w with
  | a :: (b :: c :: _) as rest => median a b c :: triplet_medians rest
  | _ => []
  end.

(** Local variables before [main] has assigned any of them. *)
Definition blank : vars := Vars 0 (repeat 0 12) 0 [].

End MedianFilter.

(** ** The strobe protocol on PIN_C0 *)

Module Strobe.


(** What [startup] does, in both programs. *)
Definition startup_events : list event :=
  [EvSetupAdcPorts ALL_ANALOG; EvSetupAdc ADC_CLOCK_INTERNAL;
   EvSetAdcChannel 0; EvDelayUs 100; EvOutputHigh PIN_C0].





End Strobe.

(** ** Whole runs: blocks of samples, expected events, time spent *)

Module Signal.

(** [n] consecutive conversion results, starting with number [start]. *)
Definition block (f : nat -> Z) (start n : nat) : list Z :=
  map (fun j => f (j + start)%nat) (seq 0 n).

(** Reading the samples [xs], each after a pause of 1 ms. *)
Definition reads (xs : list Z) : list event :=
  flat_map (fun x => [EvDelayMs 1; EvReadAdc x]) xs.

(** The truncated mean the first program computes from five samples. *)
Definition mean5 (xs : list Z) : Z := Z.quot (total xs) 5.

(** The events of one round of the first program on the samples [xs]. *)
Definition average_round (xs : list Z) : list event :=
  reads xs ++ emission (mean5 xs).

(** The events of one round of the second program on the samples [xs]. *)
Definition median_round (xs : list Z) : list event :=
  reads xs
  ++ flat_map emission (MedianFilter.triplet_medians (MedianFilter.padded xs)).

(** Milliseconds spent in [delay_ms]. *)
Fixpoint busy_ms (evs : list event) : Z :=
  match evs with
  | [] => 0
  | EvDelayMs n :: evs' => n + busy_ms evs'
  | _ :: evs' => busy_ms evs'
  end.

(** Microseconds spent in [delay_us]. *)
Fixpoint busy_us (evs : list event) : Z :=
  match evs with
  | [] => 0
  | EvDelayUs n :: evs' => n + busy_us evs'
  | _ :: evs' => busy_us evs'
  end.

(** The number of calls of [read_adc]. *)
Fixpoint conversions (evs : list event) : nat :=
  match evs with
  | [] => 0
  | EvReadAdc _ :: evs' => Datatypes.S (conversions evs')
  | _ :: evs' => conversions evs'
  end.

End Signal.

(** * Properties *)

(** ** Machine integers *)

Lemma wrap8_small (z : Z) : int8 z -> wrap8 z = z.
Proof. unfold int8, wrap8. intros H. apply Z.mod_small. exact H. Qed.

Lemma wrap16_small (z : Z) : int16 z -> wrap16 z = z.
Proof. unfold int16, wrap16. intros H. apply Z.mod_small. exact H. Qed.

Lemma udiv_div (a b : Z) : 0 <= a -> 0 < b -> udiv a b = a / b.
Proof. intros Ha Hb. unfold udiv. apply Z.quot_div_nonneg; lia. Qed.

Lemma udiv5_bounds (a : Z) : 0 <= a -> 0 <= udiv a 5 /\ 5 * udiv a 5 <= a < 5 * udiv a 5 + 5.
Proof.
  intros Ha. rewrite udiv_div by lia.
  pose proof (Z.div_mod a 5 ltac:(lia)) as E.
  pose proof (Z.mod_pos_bound a 5 ltac:(lia)) as B.
  lia.
Qed.

(** ** The three-element sort *)

Ltac median_cases :=
  unfold median;
  repeat match goal with
         | |- context [ ?x >? ?y ] =>
             let E := fresh "E" in
             destruct (Z.gtb_spec x y) as [E | E]; cbn [fst snd]
         end.

Lemma median_sorted (a b c : Z) : a <= b -> b <= c -> median a b c = b.
Proof. intros Hab Hbc. median_cases; lia. Qed.

Lemma median_sum (a b c : Z) :
  median a b c = a + b + c - Z.min a (Z.min b c) - Z.max a (Z.max b c).
Proof. median_cases; lia. Qed.

Lemma perm3_cases (a b c : Z) (l : list Z) :
  Permutation [a; b; c] l ->
  l = [a; b; c] \/ l = [a; c; b] \/ l = [b; a; c] \/
  l = [b; c; a] \/ l = [c; a; b] \/ l = [c; b; a].
Proof.
  intros H.
  destruct (Permutation_vs_cons_inv (Permutation_sym H)) as (l1 & l2 & ->).
  apply Permutation_cons_app_inv in H.
  apply Permutation_length_2_inv in H.
  destruct l1 as [| x [| y [| z l1]]]; cbn in H |- *;
    destruct H as [H | H]; inversion H; subst; auto 10.
  all: destruct l1; discriminate.
Qed.

Ltac pick_order lo mid hi :=
  replace (Z.min _ (Z.min _ _)) with lo by lia;
  replace (Z.max _ (Z.max _ _)) with hi by lia;
  replace (median _ _ _) with mid by (median_cases; lia).

(** C2.  [median a b c] is the middle element of the triplet: taking the
    least and the greatest of the three away leaves exactly the returned
    value, which lies between them; it is therefore never strictly below
    or strictly above both other inputs.  When two inputs are equal the
    repeated value is returned.  [median 5 5 9 = 5], [median 3 7 5 = 5].
    The statement holds for all integers, hence for all 8-bit values,
    and an 8-bit triplet has an 8-bit median. *)
Theorem median_is_middle (a b c : Z) :
  let m := median a b c in
  let lo := Z.min a (Z.min b c) in
  let hi := Z.max a (Z.max b c) in
  Permutation [a; b; c] [lo; m; hi] /\
  lo <= m <= hi /\
  ~ (m < a /\ m < b) /\ ~ (m < a /\ m < c) /\ ~ (m < b /\ m < c) /\
  ~ (a < m /\ b < m) /\ ~ (a < m /\ c < m) /\ ~ (b < m /\ c < m) /\
  median a a c = a /\ median a b a = a /\ median a b b = b /\
  (int8 a /\ int8 b /\ int8 c -> int8 m) /\
  median 5 5 9 = 5 /\ median 3 7 5 = 5.
Proof.
  cbv zeta. split; [| repeat split; try reflexivity].
  - destruct (Z.le_gt_cases a b), (Z.le_gt_cases b c), (Z.le_gt_cases a c);
      try lia.
    + pick_order a b c. reflexivity.
    + pick_order a c b. apply perm_skip, perm_swap.
    + pick_order c a b.
      apply Permutation_sym, (Permutation_cons_append [a; b] c).
    + pick_order b a c. apply perm_swap.
    + pick_order b c a. apply (Permutation_cons_append [b; c] a).
    + pick_order c b a.
      eapply perm_trans; [apply perm_swap |].
      apply Permutation_sym, (Permutation_cons_append [b; a] c).
  - rewrite median_sum. lia.
  - rewrite median_sum. lia.
  - rewrite median_sum. lia.
  - rewrite median_sum. lia.
  - rewrite median_sum. lia.
  - rewrite median_sum. lia.
  - rewrite median_sum. lia.
  - rewrite median_sum. lia.
  - rewrite median_sum. lia.
  - rewrite median_sum. lia.
  - rewrite median_sum. lia.
  - rewrite median_sum. unfold int8 in *. lia.
  - rewrite median_sum. unfold int8 in *. lia.
Qed.

(** C10.  [median] is symmetric: any rearrangement of the three
    arguments gives the same result, and [median x x x = x]. *)
Theorem median_symmetric (a b c a' b' c' x : Z)
    (Hperm : Permutation [a; b; c] [a'; b'; c']) :
  median a b c = median a' b' c' /\ median x x x = x.
Proof.
  split.
  - rewrite !median_sum.
    destruct (perm3_cases _ _ _ _ Hperm) as [E | [E | [E | [E | [E | E]]]]];
      inversion E; subst; lia.
  - rewrite median_sum. lia.
Qed.

Lemma median_symmetric_witness :
  Permutation [3; 7; 5] [5; 3; 7] /\
  median 3 7 5 = median 5 3 7 /\ median 4 4 4 = 4.
Proof.
  assert (P : Permutation [3; 7; 5] [5; 3; 7]).
  { apply Permutation_sym, (Permutation_cons_append [3; 7] 5). }
  split; [exact P |].
  exact (median_symmetric 3 7 5 5 3 7 4 P).
Defined.

(** ** Running programs *)

Lemma bind_ok {S A B} (m : M S A) (k : A -> M S B) (s s' : S) (a : A) :
  m s = Some (a, s') -> bind m k s = k a s'.
Proof. intros E. unfold bind. rewrite E. reflexivity. Qed.

(** A loop whose [k]-th pass starts in state [f k] stops in [f n] when
    the test first fails there, provided the budget covers [n] passes. *)
Lemma while_iter {S} (cond : M S bool) (body : M S unit) (f : nat -> S)
    (n : nat) :
  (forall k, (k < n)%nat ->
     cond (f k) = Some (true, f k) /\ body (f k) = Some (tt, f (Datatypes.S k))) ->
  cond (f n) = Some (false, f n) ->
  forall budget, (n < budget)%nat ->
  while_ budget cond body (f 0%nat) = Some (tt, f n).
Proof.
  intros Hstep Hstop.
  assert (G : forall d j budget, (j + d = n)%nat -> (d < budget)%nat ->
                while_ budget cond body (f j) = Some (tt, f n)).
  { induction d as [| d IH]; intros j budget Hj Hb.
    - destruct budget as [| budget]; [lia |].
      replace j with n by lia. cbn [while_].
      rewrite (bind_ok _ _ _ _ _ Hstop). reflexivity.
    - destruct budget as [| budget]; [lia |].
      destruct (Hstep j ltac:(lia)) as [Hc Hb'].
      cbn [while_]. rewrite (bind_ok _ _ _ _ _ Hc).
      rewrite (bind_ok _ _ _ _ _ Hb').
      apply IH; lia. }
  intros budget Hb. apply (G n 0%nat budget); lia.
Qed.

(** Runs straight-line statements on an explicit state. *)
Ltac run_builtins :=
  cbv beta iota zeta delta
    [bind ret gets modify local on_locals on_dev
     setup_adc_ports setup_adc set_adc_channel delay_us delay_ms read_adc
     output_d output_low output_high hw_log hw_read hw_port_d hw_pin
     locals dev adc_in adc_pos port_d pin_c0 trace].

Lemma upcoming_S (h : hw) (k : nat) :
  upcoming h (Datatypes.S k) = upcoming h k ++ [adc_in h (k + adc_pos h)%nat].
Proof. unfold upcoming. rewrite seq_S, map_app. reflexivity. Qed.

Lemma total_app (xs ys : list Z) : total (xs ++ ys) = total xs + total ys.
Proof. unfold total. induction xs as [| x xs IH]; cbn; lia. Qed.

Lemma total_upcoming_bounds (h : hw) (k : nat) :
  adc8 h -> 0 <= total (upcoming h k) <= 255 * Z.of_nat k.
Proof.
  intros H8. induction k as [| k IH].
  - cbn. lia.
  - rewrite upcoming_S, total_app. cbn.
    pose proof (H8 (k + adc_pos h)%nat) as B. unfold int8 in B. lia.
Qed.

Lemma adc8_replay (l : list Z) : Forall int8 l -> adc8 (reset_with l).
Proof.
  intros H k. cbn. unfold replay. revert k.
  induction H as [| x l Hx _ IH]; intros [| k]; cbn;
    try (unfold int8; lia); auto.
Qed.

Lemma port_writes_app (xs ys : list event) :
  port_writes (xs ++ ys) = port_writes xs ++ port_writes ys.
Proof.
  induction xs as [| e xs IH]; [reflexivity |].
  destruct e; cbn; rewrite ?IH; reflexivity.
Qed.

Lemma port_writes_reads (xs : list Z) :
  port_writes (flat_map (fun x => [EvDelayMs 1; EvReadAdc x]) xs) = [].
Proof. induction xs as [| x xs IH]; [reflexivity | exact IH]. Qed.

(** ** Moving average *)

Module MovingAverageFacts.
Import MovingAverage.


Lemma after_0 (s : state) :
  after s 0 = Mach (Vars 0 (avg_voltage (locals s)) 0) (dev s).
Proof.
  destruct s as [l [f p d c tr]]. unfold after. cbn. rewrite app_nil_r.
  reflexivity.
Qed.

Lemma pass_ok (s : state) (k : nat) :
  adc8 (dev s) -> (k < 5)%nat ->
  bind sample_once (fun _ => next_i) (after s k)
  = Some (tt, after s (Datatypes.S k)).
Proof.
  intros H8 Hk.
  pose proof (total_upcoming_bounds (dev s) k H8) as Bk.
  pose proof (H8 (k + adc_pos (dev s))%nat) as Bx. unfold int8 in Bx.
  unfold after. cbv zeta. rewrite !upcoming_S, total_app, flat_map_app.
  destruct s as [[sv av iv] [f p d c tr]].
  unfold sample_once, next_i. run_builtins.
  cbv [set_sum_voltage set_i sum_voltage avg_voltage i].
  cbn in Bk, Bx |- *. rewrite <- !app_assoc. cbn.
  rewrite wrap16_small by (unfold int16; lia).
  rewrite wrap8_small by (unfold int8; lia).
  repeat f_equal; lia.
Qed.

Lemma sampling_ok (s : state) :
  adc8 (dev s) ->
  bind (on_locals (set_sum_voltage 0)) (fun _ => sampling) s
  = Some (tt, after s 5).
Proof.
  intros H8. unfold sampling, for_.
  rewrite (bind_ok _ _ _ (Mach (Vars 0 (avg_voltage (locals s)) (i (locals s))) (dev s)) tt)
    by (destruct s as [[sv av iv] h]; reflexivity).
  rewrite (bind_ok _ _ _ (after s 0) tt)
    by (rewrite after_0; reflexivity).
  apply while_iter.
  - intros k Hk. split.
    + unfold after. run_builtins. cbv [i].
      replace (Z.of_nat k <? 5) with true by (symmetry; apply Z.ltb_lt; lia).
      reflexivity.
    + apply pass_ok; assumption.
  - reflexivity.
  - unfold INT8_STATES. lia.
Qed.

(** One round of the endless loop, from any state. *)
Lemma loop_body_ok (s : state) :
  adc8 (dev s) ->
  let h := dev s in
  let xs := upcoming h 5 in
  let avg := Z.quot (total xs) 5 in
  loop_body s
  = Some (tt,
          Mach (Vars (total xs) avg 5)
               (MkHw (adc_in h) (5 + adc_pos h) avg true
                     (trace h ++
                      flat_map (fun x => [EvDelayMs 1; EvReadAdc x]) xs ++
                      [EvOutputD avg; EvOutputLow PIN_C0; EvDelayMs 10;
                       EvOutputHigh PIN_C0]))).
Proof.
  intros H8 h xs avg. subst avg xs h.
  pose proof (total_upcoming_bounds (dev s) 5 H8) as B.
  pose proof (udiv5_bounds (total (upcoming (dev s) 5)) ltac:(lia)) as Q.
  pose proof (sampling_ok s H8) as E.
  destruct s as [[sv av iv] [f p d c tr]].
  unfold loop_body. unfold bind at 1 in E. unfold bind at 1.
  destruct (on_locals (set_sum_voltage 0) _) as [[[] s1] |]; [| discriminate].
  rewrite (bind_ok _ _ _ _ _ E).
  unfold after, emit. run_builtins.
  cbv [set_avg_voltage sum_voltage avg_voltage i].
  cbv [dev] in B, Q.
  rewrite wrap8_small by (unfold int8; lia).
  rewrite <- !app_assoc. reflexivity.
Qed.

Lemma passes_ok (s : state) (n j : nat) :
  adc8 (dev s) -> (j + n <= 5)%nat ->
  rounds n (bind sample_once (fun _ => next_i)) (after s j)
  = Some (tt, after s (j + n)).
Proof.
  intros H8. revert j. induction n as [| n IH]; intros j Hj.
  - rewrite Nat.add_0_r. reflexivity.
  - cbn [rounds]. rewrite (bind_ok _ _ _ _ _ (pass_ok s j H8 ltac:(lia))).
    rewrite IH by lia. replace (j + Datatypes.S n)%nat with (Datatypes.S j + n)%nat by lia.
    reflexivity.
Qed.

(** C1.  One round of the moving-average loop that reads the samples
    [x0 .. x4] writes exactly one byte to port D, the truncated integer
    mean [(x0 + x1 + x2 + x3 + x4) / 5], and leaves it on the port.
    On the streams [2,4,6,8,10], [10,20,30,40,50] and [1,1,1,1,2] the
    byte written is 6, 30 and 1. *)
Theorem moving_average_emits_mean (s : state) (x0 x1 x2 x3 x4 : Z)
    (H8 : adc8 (dev s))
    (Hxs : upcoming (dev s) 5 = [x0; x1; x2; x3; x4]) :
  (exists s' evs,
     loop_body s = Some (tt, s') /\
     trace (dev s') = trace (dev s) ++ evs /\
     port_writes evs = [Z.quot (x0 + x1 + x2 + x3 + x4) 5] /\
     port_d (dev s') = Z.quot (x0 + x1 + x2 + x3 + x4) 5) /\
  (forall l : vars,
     option_map (fun r => port_writes (trace (dev (snd r))))
                (loop_body (Mach l (reset_with [2; 4; 6; 8; 10])))
     = Some [6] /\
     option_map (fun r => port_writes (trace (dev (snd r))))
                (loop_body (Mach l (reset_with [10; 20; 30; 40; 50])))
     = Some [30] /\
     option_map (fun r => port_writes (trace (dev (snd r))))
                (loop_body (Mach l (reset_with [1; 1; 1; 1; 2])))
     = Some [1]).
Proof.
  split.
  - pose proof (loop_body_ok s H8) as E. cbv zeta in E.
    rewrite Hxs in E.
    replace (total [x0; x1; x2; x3; x4]) with (x0 + x1 + x2 + x3 + x4) in E
      by (unfold total; cbn; lia).
    eexists. eexists. split; [exact E |]. cbn [dev trace port_d].
    split; [reflexivity |]. split; [| reflexivity].
    rewrite port_writes_app.
    rewrite (port_writes_reads [x0; x1; x2; x3; x4]). reflexivity.
  - intros l. repeat split; vm_compute; reflexivity.
Qed.

Lemma moving_average_emits_mean_witness :
  exists s' evs,
    loop_body (Mach blank (reset_with [2; 4; 6; 8; 10])) = Some (tt, s') /\
    trace (dev s') = [] ++ evs /\
    port_writes evs = [Z.quot (2 + 4 + 6 + 8 + 10) 5] /\
    port_d (dev s') = Z.quot (2 + 4 + 6 + 8 + 10) 5.
Proof.
  refine (proj1 (moving_average_emits_mean
                   (Mach blank (reset_with [2; 4; 6; 8; 10]))
                   2 4 6 8 10 _ _)).
  - apply adc8_replay. repeat constructor; unfold int8; lia.
  - reflexivity.
Defined.

(** C5.  The running sum is exact: after [k <= 5] passes of the
    sampling loop [sum_voltage] holds the mathematical sum of the [k]
    samples read so far, which is at most [255 * k <= 1275] and so below
    [2 ^ 16]; no addition wraps.  When the loop ends [sum_voltage] is
    the sum of all five samples. *)
Theorem sum_voltage_exact (s : state) (k : nat)
    (H8 : adc8 (dev s)) (Hk : (k <= 5)%nat) :
  (exists s',
     (on_locals (set_sum_voltage 0) >> on_locals (set_i 0) >>
      rounds k (sample_once >> next_i)) s = Some (tt, s') /\
     sum_voltage (locals s') = total (upcoming (dev s) k) /\
     0 <= total (upcoming (dev s) k) <= 255 * Z.of_nat k /\
     255 * Z.of_nat k <= 1275 /\ 1275 < 2 ^ 16) /\
  (exists s',
     (on_locals (set_sum_voltage 0) >> sampling) s = Some (tt, s') /\
     sum_voltage (locals s') = total (upcoming (dev s) 5) /\
     int16 (total (upcoming (dev s) 5))).
Proof.
  split.
  - exists (after s k). split; [| split; [reflexivity |]].
    + rewrite (bind_ok _ _ _
                 (Mach (Vars 0 (avg_voltage (locals s)) (i (locals s))) (dev s)) tt)
        by (destruct s as [[sv av iv] h]; reflexivity).
      rewrite (bind_ok _ _ _ (after s 0) tt) by (rewrite after_0; reflexivity).
      apply (passes_ok s k 0 H8). lia.
    + split; [apply total_upcoming_bounds; assumption | lia].
  - exists (after s 5). split; [apply sampling_ok; assumption |].
    split; [reflexivity |].
    pose proof (total_upcoming_bounds (dev s) 5 H8). unfold int16. lia.
Qed.

Lemma sum_voltage_exact_witness :
  exists s',
    (on_locals (set_sum_voltage 0) >> sampling)
      (Mach blank (reset_with [255; 255; 255; 255; 255])) = Some (tt, s') /\
    sum_voltage (locals s') = 1275.
Proof.
  assert (H8 : adc8 (dev (Mach blank (reset_with [255; 255; 255; 255; 255]))))
    by (apply adc8_replay; repeat constructor; unfold int8; lia).
  destruct (proj2 (sum_voltage_exact
                     (Mach blank (reset_with [255; 255; 255; 255; 255]))
                     5 H8 (le_n 5)))
    as (s' & E & S & _).
  exists s'. split; [exact E |]. rewrite S. reflexivity.
Defined.

(** C8.  For five 8-bit samples the quotient [sum / 5] lies in
    [0, 255]; narrowing it to [int8] changes nothing, so [avg_voltage]
    and the byte written to port D are [sum / 5] itself. *)
Theorem mean_fits_int8 (s : state) (H8 : adc8 (dev s)) :
  let sum := total (upcoming (dev s) 5) in
  0 <= Z.quot sum 5 <= 255 /\
  wrap8 (udiv sum 5) = Z.quot sum 5 /\
  exists s' evs,
    loop_body s = Some (tt, s') /\
    sum_voltage (locals s') = sum /\
    avg_voltage (locals s') = Z.quot sum 5 /\
    port_d (dev s') = Z.quot sum 5 /\
    trace (dev s') = trace (dev s) ++ evs /\
    port_writes evs = [Z.quot sum 5].
Proof.
  intros sum. subst sum.
  pose proof (total_upcoming_bounds (dev s) 5 H8) as B.
  pose proof (udiv5_bounds (total (upcoming (dev s) 5)) ltac:(lia)) as Q.
  unfold udiv in *.
  split; [lia |]. split; [apply wrap8_small; unfold int8; lia |].
  pose proof (loop_body_ok s H8) as E. cbv zeta in E.
  eexists. eexists. split; [exact E |]. cbn [locals dev sum_voltage avg_voltage port_d trace].
  repeat (split; [reflexivity |]).
  rewrite port_writes_app, port_writes_reads. reflexivity.
Qed.

Lemma mean_fits_int8_witness :
  exists s' evs,
    loop_body (Mach blank (reset_with [255; 255; 255; 255; 255])) = Some (tt, s') /\
    avg_voltage (locals s') = 255 /\
    trace (dev s') = [] ++ evs /\
    port_writes evs = [255].
Proof.
  assert (H8 : adc8 (dev (Mach blank (reset_with [255; 255; 255; 255; 255]))))
    by (apply adc8_replay; repeat constructor; unfold int8; lia).
  destruct (mean_fits_int8 _ H8) as (_ & _ & s' & evs & E & _ & A & _ & T & W).
  exists s', evs. repeat split; assumption.
Defined.

End MovingAverageFacts.

(** ** Median filter *)

Module MedianFilterFacts.
Import MedianFilter.

(** Evaluates a program whose control flow is fixed, keeping the sample
    values, the medians and the list concatenations symbolic. *)
Ltac run_fixed :=
  cbv -[app median];
  rewrite <- ?app_assoc; cbn [app]; reflexivity.

Lemma length_12 (w : list Z) :
  length w = 12%nat ->
  exists v0 v1 v2 v3 v4 v5 v6 v7 v8 v9 v10 v11,
    w = [v0; v1; v2; v3; v4; v5; v6; v7; v8; v9; v10; v11].
Proof.
  intros H.
  do 12 (destruct w as [| ? w]; [discriminate H |]).
  destruct w; [| discriminate H].
  repeat eexists.
Qed.

Lemma sampling_run iv mv acc f p d c tr v0 v1 v2 v3 v4 v5 v6 v7 v8 v9 v10 v11 :
  let x k := f (k + p)%nat in
  let xs := [x 0; x 1; x 2; x 3; x 4; x 5; x 6; x 7; x 8; x 9]%nat in
  sampling (Mach (Vars iv [v0; v1; v2; v3; v4; v5; v6; v7; v8; v9; v10; v11] mv acc)
                 (MkHw f p d c tr))
  = Some (tt,
          Mach (Vars 11 [v0; x 0; x 1; x 2; x 3; x 4; x 5; x 6; x 7; x 8; x 9; v11]%nat
                     mv (acc ++ map Wr (seqZ 1 10)))
               (MkHw f (10 + p) d c
                     (tr ++ flat_map (fun x => [EvDelayMs 1; EvReadAdc x]) xs))).
Proof. run_fixed. Qed.

Lemma padding_run iv mv acc h v0 v1 v2 v3 v4 v5 v6 v7 v8 v9 v10 v11 :
  padding (Mach (Vars iv [v0; v1; v2; v3; v4; v5; v6; v7; v8; v9; v10; v11] mv acc) h)
  = Some (tt,
          Mach (Vars iv [v1; v1; v2; v3; v4; v5; v6; v7; v8; v9; v10; v10] mv
                     (acc ++ [Rd 1; Wr 0; Rd 10; Wr 11]))
               h).
Proof. run_fixed. Qed.

Lemma filtering_run iv mv acc f p d c tr v0 v1 v2 v3 v4 v5 v6 v7 v8 v9 v10 v11 :
  let w := [v0; v1; v2; v3; v4; v5; v6; v7; v8; v9; v10; v11] in
  filtering (Mach (Vars iv w mv acc) (MkHw f p d c tr))
  = Some (tt,
          Mach (Vars 10 w (median v9 v10 v11)
                     (acc ++ flat_map (fun k => [Rd k; Rd (k + 1); Rd (k + 2)])
                                      (seqZ 0 10)))
               (MkHw f p (median v9 v10 v11) true
                     (tr ++ flat_map emission (triplet_medians w)))).
Proof. run_fixed. Qed.

Lemma port_writes_emissions (ms : list Z) :
  port_writes (flat_map emission ms) = ms.
Proof. induction ms as [| m ms IH]; [reflexivity | cbn; rewrite IH; reflexivity]. Qed.

(** The three phases of one round, from any state whose array has its
    declared size. *)
Lemma phases_ok (s : state) :
  length (voltage (locals s)) = 12%nat ->
  let xs := upcoming (dev s) 10 in
  let w := padded xs in
  exists s1 s2 s3 mv,
    sampling s = Some (tt, s1) /\
    padding s1 = Some (tt, s2) /\
    filtering s2 = Some (tt, s3) /\
    accesses (locals s1) = accesses (locals s) ++ map Wr (seqZ 1 10) /\
    accesses (locals s2) = accesses (locals s1) ++ [Rd 1; Wr 0; Rd 10; Wr 11] /\
    accesses (locals s3)
    = accesses (locals s2)
      ++ flat_map (fun k => [Rd k; Rd (k + 1); Rd (k + 2)]) (seqZ 0 10) /\
    voltage (locals s2) = w /\
    dev s2 = MkHw (adc_in (dev s)) (10 + adc_pos (dev s)) (port_d (dev s))
                  (pin_c0 (dev s))
                  (trace (dev s)
                   ++ flat_map (fun x => [EvDelayMs 1; EvReadAdc x]) xs) /\
    s3 = Mach (Vars 10 w mv (accesses (locals s3)))
              (MkHw (adc_in (dev s)) (10 + adc_pos (dev s)) mv true
                    (trace (dev s)
                     ++ flat_map (fun x => [EvDelayMs 1; EvReadAdc x]) xs
                     ++ flat_map emission (triplet_medians w))).
Proof.
  intros H12 xs w. subst w xs.
  destruct s as [[iv w mv acc] [f p d c tr]]. cbn [locals dev voltage] in *.
  destruct (length_12 w H12)
    as (v0 & v1 & v2 & v3 & v4 & v5 & v6 & v7 & v8 & v9 & v10 & v11 & ->).
  eexists. eexists. eexists. eexists.
  split; [apply sampling_run |]. cbv zeta.
  split; [apply padding_run |].
  split; [apply filtering_run |].
  cbn [locals dev voltage accesses adc_in adc_pos port_d pin_c0 trace].
  repeat split; try reflexivity.
  cbv [padded upcoming seq map List.last]. cbn [app].
  rewrite <- !app_assoc. reflexivity.
Qed.

Lemma loop_body_phases (s s1 s2 s3 : state) :
  sampling s = Some (tt, s1) -> padding s1 = Some (tt, s2) ->
  filtering s2 = Some (tt, s3) -> loop_body s = Some (tt, s3).
Proof.
  intros E1 E2 E3. unfold loop_body.
  rewrite (bind_ok _ _ _ _ _ E1), (bind_ok _ _ _ _ _ E2). exact E3.
Qed.


(** C3.  One round of the median loop that reads ten samples [xs]
    writes exactly ten bytes to port D; with [w] the 12-element padded
    window (first and last sample duplicated), the [i]-th byte written,
    [i = 0 .. 9], is [median w[i] w[i+1] w[i+2]].  On the stream
    [1,9,2,8,3,7,4,6,5,5] the bytes are [1,2,8,3,7,4,6,5,5,5]. *)
Theorem median_round_outputs (s : state)
    (H12 : length (voltage (locals s)) = 12%nat) :
  (exists s' evs,
     loop_body s = Some (tt, s') /\
     trace (dev s') = trace (dev s) ++ evs /\
     let w := padded (upcoming (dev s) 10) in
     let outs := port_writes evs in
     voltage (locals s') = w /\
     length w = 12%nat /\
     length outs = 10%nat /\
     forall k : nat, (k < 10)%nat ->
       nth k outs 0 = median (nth k w 0) (nth (k + 1) w 0) (nth (k + 2) w 0)) /\
  option_map (fun r => port_writes (trace (dev (snd r))))
             (loop_body (Mach blank (reset_with [1; 9; 2; 8; 3; 7; 4; 6; 5; 5])))
  = Some [1; 2; 8; 3; 7; 4; 6; 5; 5; 5].
Proof.
  split; [| vm_compute; reflexivity].
  destruct (phases_ok s H12)
    as (s1 & s2 & s3 & mv & E1 & E2 & E3 & _ & _ & _ & _ & _ & E).
  exists s3. eexists. split; [exact (loop_body_phases _ _ _ _ E1 E2 E3) |].
  rewrite E. cbn [locals dev voltage trace].
  split; [reflexivity |]. cbv zeta.
  rewrite port_writes_app, port_writes_reads, port_writes_emissions.
  cbn [app].
  split; [reflexivity |]. split; [reflexivity |]. split; [reflexivity |].
  intros k Hk.
  do 10 (destruct k as [| k]; [reflexivity |]). lia.
Qed.

Lemma median_round_outputs_witness :
  exists s' evs,
    loop_body (Mach blank (reset_with [1; 9; 2; 8; 3; 7; 4; 6; 5; 5]))
    = Some (tt, s') /\
    trace (dev s') = [] ++ evs /\
    voltage (locals s') = [1; 1; 9; 2; 8; 3; 7; 4; 6; 5; 5; 5] /\
    port_writes evs = [1; 2; 8; 3; 7; 4; 6; 5; 5; 5].
Proof.
  destruct (proj1 (median_round_outputs
                     (Mach blank (reset_with [1; 9; 2; 8; 3; 7; 4; 6; 5; 5]))
                     eq_refl))
    as (s' & evs & E & T & W & _).
  exists s', evs. split; [exact E |]. split; [exact T |].
  split; [exact W |].
  vm_compute in E. injection E as <-. cbn in T. subst evs. reflexivity.
Defined.

(** C4.  After the sampling and padding phase the array still has its
    12 elements, index 0 holds the same value as index 1 (the first
    sample) and index 11 the same value as index 10 (the tenth sample);
    in between lie the ten samples in order. *)
Theorem padded_window_shape (s : state)
    (H12 : length (voltage (locals s)) = 12%nat) :
  exists s',
    (sampling >> padding) s = Some (tt, s') /\
    let w := voltage (locals s') in
    length w = 12%nat /\
    w !! 0%nat = w !! 1%nat /\
    w !! 11%nat = w !! 10%nat /\
    w !! 1%nat = Some (adc_in (dev s) (adc_pos (dev s))) /\
    w !! 10%nat = Some (adc_in (dev s) (9 + adc_pos (dev s))) /\
    firstn 10 (skipn 1 w) = upcoming (dev s) 10.
Proof.
  destruct (phases_ok s H12)
    as (s1 & s2 & s3 & mv & E1 & E2 & _ & _ & _ & _ & W & _).
  exists s2. split.
  - rewrite (bind_ok _ _ _ _ _ E1). exact E2.
  - cbv zeta. rewrite W. repeat split; reflexivity.
Qed.

Lemma padded_window_shape_witness :
  exists s',
    (sampling >> padding)
      (Mach blank (reset_with [1; 9; 2; 8; 3; 7; 4; 6; 5; 5])) = Some (tt, s') /\
    voltage (locals s') = [1; 1; 9; 2; 8; 3; 7; 4; 6; 5; 5; 5].
Proof.
  destruct (padded_window_shape
              (Mach blank (reset_with [1; 9; 2; 8; 3; 7; 4; 6; 5; 5])) eq_refl)
    as (s' & E & _).
  exists s'. split; [exact E |].
  vm_compute in E. injection E as <-. reflexivity.
Defined.

Ltac sorted_inv :=
  repeat match goal with
         | H : Sorted _ (_ :: _) |- _ => inversion H; subst; clear H
         | H : HdRel _ _ (_ :: _) |- _ => inversion H; subst; clear H
         end.

Ltac sorted_build :=
  repeat (apply Sorted_cons; [| first [ apply HdRel_nil | apply HdRel_cons; lia ]]);
  try apply Sorted_nil.

(** C6.  On a 12-element window that increases monotonically (each
    element at most its right neighbour, strictly increasing windows
    included) the filtering loop writes ten bytes that never decrease:
    they are the ten inner elements of the window. *)
Theorem sorted_window_sorted_output (s : state)
    (H12 : length (voltage (locals s)) = 12%nat)
    (Hinc : Sorted Z.le (voltage (locals s))) :
  exists s' evs,
    filtering s = Some (tt, s') /\
    trace (dev s') = trace (dev s) ++ evs /\
    port_writes evs = triplet_medians (voltage (locals s)) /\
    port_writes evs = firstn 10 (skipn 1 (voltage (locals s))) /\
    length (port_writes evs) = 10%nat /\
    Sorted Z.le (port_writes evs).
Proof.
  destruct s as [[iv w mv acc] [f p d c tr]]. cbn [locals dev voltage trace] in *.
  destruct (length_12 w H12)
    as (v0 & v1 & v2 & v3 & v4 & v5 & v6 & v7 & v8 & v9 & v10 & v11 & ->).
  eexists. eexists. split; [apply filtering_run |].
  cbn [dev trace]. split; [reflexivity |].
  rewrite port_writes_emissions.
  split; [reflexivity |].
  sorted_inv.
  assert (E : triplet_medians [v0; v1; v2; v3; v4; v5; v6; v7; v8; v9; v10; v11]
              = [v1; v2; v3; v4; v5; v6; v7; v8; v9; v10]).
  { cbn [triplet_medians]. rewrite !median_sorted by lia. reflexivity. }
  rewrite E. split; [reflexivity |]. split; [reflexivity |].
  sorted_build.
Qed.

Lemma sorted_window_sorted_output_witness :
  exists s' evs,
    filtering (Mach (Vars 0 [1; 1; 2; 3; 5; 8; 13; 21; 34; 55; 89; 89] 0 [])
                    (reset_with [])) = Some (tt, s') /\
    trace (dev s') = [] ++ evs /\
    port_writes evs = [1; 2; 3; 5; 8; 13; 21; 34; 55; 89] /\
    Sorted Z.le (port_writes evs).
Proof.
  assert (Hinc : Sorted Z.le [1; 1; 2; 3; 5; 8; 13; 21; 34; 55; 89; 89])
    by sorted_build.
  destruct (sorted_window_sorted_output
              (Mach (Vars 0 [1; 1; 2; 3; 5; 8; 13; 21; 34; 55; 89; 89] 0 [])
                    (reset_with []))
              eq_refl Hinc)
    as (s' & evs & E & T & _ & W & _ & S).
  exists s', evs. repeat split; assumption.
Defined.

(** C9.  Every subscript applied to [voltage] in one round lies inside
    the 12-element array: the sampling loop writes indices 1 to 10, the
    padding reads 1 and 10 and writes 0 and 11, the filtering loop reads
    [k], [k+1], [k+2] for [k = 0 .. 9]; all lie between 0 and 11, so no
    access fails.  A subscript outside [0, 11] would fail. *)
Theorem accesses_within_bounds (s : state)
    (H12 : length (voltage (locals s)) = 12%nat) :
  (exists s1 s2 s3,
     sampling s = Some (tt, s1) /\
     padding s1 = Some (tt, s2) /\
     filtering s2 = Some (tt, s3) /\
     loop_body s = Some (tt, s3) /\
     accesses (locals s1) = accesses (locals s) ++ map Wr (seqZ 1 10) /\
     accesses (locals s2) = accesses (locals s1) ++ [Rd 1; Wr 0; Rd 10; Wr 11] /\
     accesses (locals s3)
     = accesses (locals s2)
       ++ flat_map (fun k => [Rd k; Rd (k + 1); Rd (k + 2)]) (seqZ 0 10) /\
     exists new,
       accesses (locals s3) = accesses (locals s) ++ new /\
       length new = 44%nat /\
       Forall (fun a => 0 <= index_of a <= 11) new) /\
  (forall idx v : Z, idx < 0 \/ 11 < idx ->
     voltage_get idx s = None /\ voltage_set idx v s = None).
Proof.
  split.
  - destruct (phases_ok s H12)
      as (s1 & s2 & s3 & mv & E1 & E2 & E3 & A1 & A2 & A3 & _).
    exists s1, s2, s3.
    split; [exact E1 |]. split; [exact E2 |]. split; [exact E3 |].
    split; [exact (loop_body_phases _ _ _ _ E1 E2 E3) |].
    split; [exact A1 |]. split; [exact A2 |]. split; [exact A3 |].
    eexists. split.
    + rewrite A3, A2, A1, <- !app_assoc. reflexivity.
    + split; [reflexivity |].
      cbn. repeat (constructor; [cbn; lia |]). constructor.
  - intros idx v Hout. unfold voltage_get, voltage_set, in_bounds, voltage_size, NUM_SAMPLES.
    assert (E : (0 <=? idx) && (idx <? 10 + 2) = false).
    { destruct Hout.
      - replace (0 <=? idx) with false by (symmetry; apply Z.leb_gt; lia). reflexivity.
      - replace (idx <? 10 + 2) with false by (symmetry; apply Z.ltb_ge; lia).
        apply andb_false_r. }
    rewrite E. split; reflexivity.
Qed.

Lemma accesses_within_bounds_witness :
  exists s3,
    loop_body (Mach blank (reset_with [1; 9; 2; 8; 3; 7; 4; 6; 5; 5])) = Some (tt, s3) /\
    length (accesses (locals s3)) = 44%nat.
Proof.
  destruct (proj1 (accesses_within_bounds
                     (Mach blank (reset_with [1; 9; 2; 8; 3; 7; 4; 6; 5; 5]))
                     eq_refl))
    as (s1 & s2 & s3 & _ & _ & _ & E & _ & _ & _ & new & A & L & _).
  exists s3. split; [exact E |]. rewrite A. exact L.
Defined.

End MedianFilterFacts.

(** ** The strobe around each write *)

Module StrobeFacts.
Import Strobe.









Lemma average_startup (s : MovingAverage.state) :
  MovingAverage.startup s
  = Some (tt, Mach (locals s)
                   (MkHw (adc_in (dev s)) (adc_pos (dev s)) (port_d (dev s)) true
                         (trace (dev s) ++ startup_events))).
Proof.
  destruct s as [l [f p d c tr]]. unfold MovingAverage.startup. run_builtins.
  rewrite <- !app_assoc. reflexivity.
Qed.

Lemma median_startup (s : MedianFilter.state) :
  MedianFilter.startup s
  = Some (tt, Mach (locals s)
                   (MkHw (adc_in (dev s)) (adc_pos (dev s)) (port_d (dev s)) true
                         (trace (dev s) ++ startup_events))).
Proof.
  destruct s as [l [f p d c tr]]. unfold MedianFilter.startup. run_builtins.
  rewrite <- !app_assoc. reflexivity.
Qed.





End StrobeFacts.

(** ** Whole runs *)

Module RunFacts.
Import Strobe Signal.

Lemma flat_map_seq_S {A} (f : nat -> list A) (n : nat) :
  flat_map f (seq 0 (Datatypes.S n))
  = f 0%nat ++ flat_map (fun k => f (Datatypes.S k)) (seq 0 n).
Proof.
  cbn [seq flat_map]. f_equal.
  rewrite <- seq_shift, !flat_map_concat_map, map_map. reflexivity.
Qed.

Lemma block_length (f : nat -> Z) (start n : nat) : length (block f start n) = n.
Proof. unfold block. rewrite length_map, length_seq. reflexivity. Qed.

Lemma busy_ms_app (xs ys : list event) :
  busy_ms (xs ++ ys) = busy_ms xs + busy_ms ys.
Proof.
  induction xs as [| e xs IH]; [reflexivity |].
  destruct e; cbn; rewrite ?IH; lia.
Qed.

Lemma busy_us_app (xs ys : list event) :
  busy_us (xs ++ ys) = busy_us xs + busy_us ys.
Proof.
  induction xs as [| e xs IH]; [reflexivity |].
  destruct e; cbn; rewrite ?IH; lia.
Qed.

Lemma conversions_app (xs ys : list event) :
  conversions (xs ++ ys) = (conversions xs + conversions ys)%nat.
Proof.
  induction xs as [| e xs IH]; [reflexivity |].
  destruct e; cbn; rewrite ?IH; lia.
Qed.

Lemma reads_measure (xs : list Z) :
  busy_ms (reads xs) = Z.of_nat (length xs) /\
  busy_us (reads xs) = 0 /\
  conversions (reads xs) = length xs /\
  port_writes (reads xs) = [].
Proof.
  induction xs as [| x xs (M & U & C & W)]; [repeat split |].
  cbn [reads flat_map app busy_ms busy_us conversions port_writes length].
  fold (reads xs). rewrite M, U, C, W. repeat split; lia.
Qed.

Lemma emissions_measure (ms : list Z) :
  busy_ms (flat_map emission ms) = 10 * Z.of_nat (length ms) /\
  busy_us (flat_map emission ms) = 0 /\
  conversions (flat_map emission ms) = 0%nat /\
  port_writes (flat_map emission ms) = ms.
Proof.
  induction ms as [| m ms (M & U & C & W)]; [repeat split |].
  cbn [flat_map emission app busy_ms busy_us conversions port_writes length].
  fold (emission m). rewrite M, U, C, W. repeat split; lia.
Qed.

(** Measures of a whole run follow from the measures of its rounds. *)
Lemma rounds_measure (round : nat -> list event) (w : nat -> list Z)
    (ms : Z) (reads_per_round n : nat) :
  (forall k, port_writes (round k) = w k /\ busy_ms (round k) = ms /\
             busy_us (round k) = 0 /\ conversions (round k) = reads_per_round) ->
  let evs := flat_map round (seq 0 n) in
  port_writes evs = flat_map w (seq 0 n) /\
  busy_ms evs = ms * Z.of_nat n /\
  busy_us evs = 0 /\
  conversions evs = (reads_per_round * n)%nat.
Proof.
  intros H evs. subst evs. generalize 0%nat as start.
  induction n as [| n IH]; intros start; [cbn; repeat split; lia |].
  cbn [seq flat_map].
  destruct (H start) as (W & M & U & C).
  destruct (IH (Datatypes.S start)) as (W' & M' & U' & C').
  rewrite port_writes_app, busy_ms_app, busy_us_app, conversions_app.
  rewrite W, M, U, C, W', M', U', C'. repeat split; lia.
Qed.

(** The first program, [n] rounds from any state. *)
Lemma average_rounds_trace (n : nat) (s : MovingAverage.state) :
  adc8 (dev s) ->
  exists s',
    rounds n MovingAverage.loop_body s = Some (tt, s') /\
    adc_in (dev s') = adc_in (dev s) /\
    adc_pos (dev s') = (5 * n + adc_pos (dev s))%nat /\
    trace (dev s')
    = trace (dev s)
      ++ flat_map (fun k => average_round
                              (block (adc_in (dev s)) (5 * k + adc_pos (dev s)) 5))
                  (seq 0 n).
Proof.
  revert s. induction n as [| n IH]; intros s H8.
  - exists s. cbn. rewrite app_nil_r. repeat split; reflexivity.
  - pose proof (MovingAverageFacts.loop_body_ok s H8) as E. cbv zeta in E.
    match type of E with _ = Some (tt, ?s1) => set (s1' := s1) in E end.
    destruct (IH s1' H8) as (s' & R & F & P & T).
    exists s'. split; [cbn [rounds]; rewrite (bind_ok _ _ _ _ _ E); exact R |].
    subst s1'. cbn [dev adc_in adc_pos trace] in F, P, T.
    split; [exact F |]. split; [rewrite P; lia |].
    rewrite T, flat_map_seq_S, <- !app_assoc. f_equal.
    change (upcoming (dev s) 5) with (block (adc_in (dev s)) (5 * 0 + adc_pos (dev s)) 5).
    unfold average_round at 2, reads, emission, mean5.
    rewrite <- !app_assoc. do 2 f_equal.
    apply flat_map_ext. intros k.
    replace (5 * k + (5 + adc_pos (dev s)))%nat
      with (5 * Datatypes.S k + adc_pos (dev s))%nat by lia.
    reflexivity.
Qed.

(** One round of the second program, from any state whose array has its
    declared size. *)
Lemma median_round_ok (s : MedianFilter.state) :
  length (MedianFilter.voltage (locals s)) = 12%nat ->
  exists s',
    MedianFilter.loop_body s = Some (tt, s') /\
    length (MedianFilter.voltage (locals s')) = 12%nat /\
    MedianFilter.voltage (locals s') = MedianFilter.padded (upcoming (dev s) 10) /\
    adc_in (dev s') = adc_in (dev s) /\
    adc_pos (dev s') = (10 + adc_pos (dev s))%nat /\
    trace (dev s') = trace (dev s) ++ median_round (upcoming (dev s) 10).
Proof.
  intros H12.
  destruct (MedianFilterFacts.phases_ok s H12)
    as (s1 & s2 & s3 & mv & E1 & E2 & E3 & _ & _ & _ & _ & _ & E).
  exists s3. split; [exact (MedianFilterFacts.loop_body_phases _ _ _ _ E1 E2 E3) |].
  rewrite E. cbn [locals dev MedianFilter.voltage adc_in adc_pos trace].
  repeat split; reflexivity.
Qed.

Lemma median_rounds_trace (n : nat) (s : MedianFilter.state) :
  length (MedianFilter.voltage (locals s)) = 12%nat ->
  exists s',
    rounds n MedianFilter.loop_body s = Some (tt, s') /\
    adc_in (dev s') = adc_in (dev s) /\
    adc_pos (dev s') = (10 * n + adc_pos (dev s))%nat /\
    trace (dev s')
    = trace (dev s)
      ++ flat_map (fun k => median_round
                              (block (adc_in (dev s)) (10 * k + adc_pos (dev s)) 10))
                  (seq 0 n).
Proof.
  revert s. induction n as [| n IH]; intros s H12.
  - exists s. cbn. rewrite app_nil_r. repeat split; reflexivity.
  - destruct (median_round_ok s H12) as (s1 & E & H12' & _ & F1 & P1 & T1).
    destruct (IH s1 H12') as (s' & R & F & P & T).
    exists s'. split; [cbn [rounds]; rewrite (bind_ok _ _ _ _ _ E); exact R |].
    split; [rewrite F; exact F1 |]. split; [rewrite P, P1; lia |].
    rewrite T, T1, F1, P1, flat_map_seq_S, <- !app_assoc. f_equal.
    change (upcoming (dev s) 10)
      with (block (adc_in (dev s)) (10 * 0 + adc_pos (dev s)) 10).
    f_equal.
    apply flat_map_ext. intros k.
    replace (10 * k + (10 + adc_pos (dev s)))%nat
      with (10 * Datatypes.S k + adc_pos (dev s))%nat by lia.
    reflexivity.
Qed.

Lemma flat_map_singleton {A B} (g : A -> B) (l : list A) :
  flat_map (fun a => [g a]) l = map g l.
Proof. induction l as [| a l IH]; [reflexivity | cbn; rewrite IH; reflexivity]. Qed.

Lemma startup_measure :
  port_writes startup_events = [] /\ busy_ms startup_events = 0 /\
  busy_us startup_events = 100 /\ conversions startup_events = 0%nat.
Proof. repeat split. Qed.

Lemma average_round_measure (f : nat -> Z) (start : nat) :
  let xs := block f start 5 in
  port_writes (average_round xs) = [mean5 xs] /\
  busy_ms (average_round xs) = 15 /\
  busy_us (average_round xs) = 0 /\
  conversions (average_round xs) = 5%nat.
Proof.
  intros xs. unfold average_round.
  destruct (reads_measure xs) as (M & U & C & W).
  rewrite port_writes_app, busy_ms_app, busy_us_app, conversions_app.
  rewrite M, U, C, W. subst xs. rewrite block_length.
  repeat split.
Qed.

Lemma median_round_measure (f : nat -> Z) (start : nat) :
  let xs := block f start 10 in
  port_writes (median_round xs)
  = MedianFilter.triplet_medians (MedianFilter.padded xs) /\
  busy_ms (median_round xs) = 110 /\
  busy_us (median_round xs) = 0 /\
  conversions (median_round xs) = 10%nat.
Proof.
  intros xs. unfold median_round.
  destruct (reads_measure xs) as (M & U & C & W).
  destruct (emissions_measure
              (MedianFilter.triplet_medians (MedianFilter.padded xs)))
    as (M' & U' & C' & W').
  rewrite port_writes_app, busy_ms_app, busy_us_app, conversions_app.
  rewrite M, U, C, W, M', U', C', W'. subst xs. rewrite block_length.
  repeat split.
Qed.

Lemma average_main_trace (n : nat) (s : MovingAverage.state) :
  adc8 (dev s) ->
  exists s',
    MovingAverage.main n s = Some (tt, s') /\
    adc_pos (dev s') = (5 * n + adc_pos (dev s))%nat /\
    trace (dev s')
    = trace (dev s)
      ++ startup_events
      ++ flat_map (fun k => average_round
                              (block (adc_in (dev s)) (5 * k + adc_pos (dev s)) 5))
                  (seq 0 n).
Proof.
  intros H8. pose proof (StrobeFacts.average_startup s) as E0.
  match type of E0 with _ = Some (tt, ?s0) => set (s0' := s0) in E0 end.
  destruct (average_rounds_trace n s0' H8) as (s' & R & _ & P & T).
  exists s'. split.
  - unfold MovingAverage.main. rewrite (bind_ok _ _ _ _ _ E0). exact R.
  - subst s0'. cbn [dev adc_in adc_pos trace] in P, T.
    split; [exact P |]. rewrite T, <- app_assoc. reflexivity.
Qed.

Lemma median_main_trace (n : nat) (s : MedianFilter.state) :
  length (MedianFilter.voltage (locals s)) = 12%nat ->
  exists s',
    MedianFilter.main n s = Some (tt, s') /\
    adc_pos (dev s') = (10 * n + adc_pos (dev s))%nat /\
    trace (dev s')
    = trace (dev s)
      ++ startup_events
      ++ flat_map (fun k => median_round
                              (block (adc_in (dev s)) (10 * k + adc_pos (dev s)) 10))
                  (seq 0 n).
Proof.
  intros H12. pose proof (StrobeFacts.median_startup s) as E0.
  match type of E0 with _ = Some (tt, ?s0) => set (s0' := s0) in E0 end.
  destruct (median_rounds_trace n s0' H12) as (s' & R & _ & P & T).
  exists s'. split.
  - unfold MedianFilter.main. rewrite (bind_ok _ _ _ _ _ E0). exact R.
  - subst s0'. cbn [dev adc_in adc_pos trace] in P, T.
    split; [exact P |]. rewrite T, <- app_assoc. reflexivity.
Qed.

(** X1.  Run for [n] rounds, the first program consumes [5 * n]
    conversion results and writes [n] bytes: the [k]-th byte is the
    truncated mean of the samples numbered [5k .. 5k+4].  The blocks do
    not overlap; every sample enters exactly one mean. *)
Theorem average_run_block_means (n : nat) (s : MovingAverage.state)
    (H8 : adc8 (dev s)) :
  exists s' evs,
    MovingAverage.main n s = Some (tt, s') /\
    trace (dev s') = trace (dev s) ++ evs /\
    port_writes evs
    = map (fun k => mean5 (block (adc_in (dev s)) (5 * k + adc_pos (dev s)) 5))
          (seq 0 n) /\
    conversions evs = (5 * n)%nat /\
    adc_pos (dev s') = (5 * n + adc_pos (dev s))%nat.
Proof.
  destruct (average_main_trace n s H8) as (s' & E & P & T).
  exists s'. eexists. split; [exact E |]. split; [exact T |].
  destruct (rounds_measure
              (fun k => average_round
                          (block (adc_in (dev s)) (5 * k + adc_pos (dev s)) 5))
              (fun k => [mean5 (block (adc_in (dev s)) (5 * k + adc_pos (dev s)) 5)])
              15 5 n
              (fun k => average_round_measure (adc_in (dev s))
                          (5 * k + adc_pos (dev s))))
    as (W & _ & _ & C).
  rewrite port_writes_app, conversions_app, W, C, flat_map_singleton.
  split; [reflexivity |]. split; [reflexivity | exact P].
Qed.

Lemma average_run_block_means_witness :
  exists s' evs,
    MovingAverage.main 2
      (Mach MovingAverage.blank (reset_with [2; 4; 6; 8; 10; 10; 20; 30; 40; 50]))
    = Some (tt, s') /\
    trace (dev s') = [] ++ evs /\
    port_writes evs = [6; 30].
Proof.
  destruct (average_run_block_means 2
              (Mach MovingAverage.blank
                    (reset_with [2; 4; 6; 8; 10; 10; 20; 30; 40; 50])))
    as (s' & evs & E & T & W & _).
  - apply adc8_replay. repeat constructor; unfold int8; lia.
  - exists s', evs. split; [exact E |]. split; [exact T |]. exact W.
Defined.

Lemma medians_length (f : nat -> Z) (p n start : nat) :
  length (flat_map (fun k => MedianFilter.triplet_medians
                               (MedianFilter.padded (block f (10 * k + p) 10)))
                   (seq start n))
  = (10 * n)%nat.
Proof.
  revert start. induction n as [| n IH]; intros start; [reflexivity |].
  cbn [seq flat_map]. rewrite length_app, IH.
  change (length (MedianFilter.triplet_medians
                    (MedianFilter.padded (block f (10 * start + p) 10))))
    with 10%nat.
  lia.
Qed.

(** X2.  Run for [n] rounds, the second program consumes [10 * n]
    conversion results and writes [10 * n] bytes: round [k] writes the
    medians of the neighbouring triplets of the padded block of samples
    numbered [10k .. 10k+9].  No sample of one round reaches the window
    of another. *)
Theorem median_run_block_medians (n : nat) (s : MedianFilter.state)
    (H12 : length (MedianFilter.voltage (locals s)) = 12%nat) :
  exists s' evs,
    MedianFilter.main n s = Some (tt, s') /\
    trace (dev s') = trace (dev s) ++ evs /\
    port_writes evs
    = flat_map (fun k => MedianFilter.triplet_medians
                           (MedianFilter.padded
                              (block (adc_in (dev s)) (10 * k + adc_pos (dev s)) 10)))
               (seq 0 n) /\
    length (port_writes evs) = (10 * n)%nat /\
    conversions evs = (10 * n)%nat /\
    adc_pos (dev s') = (10 * n + adc_pos (dev s))%nat.
Proof.
  destruct (median_main_trace n s H12) as (s' & E & P & T).
  exists s'. eexists. split; [exact E |]. split; [exact T |].
  destruct (rounds_measure
              (fun k => median_round
                          (block (adc_in (dev s)) (10 * k + adc_pos (dev s)) 10))
              (fun k => MedianFilter.triplet_medians
                          (MedianFilter.padded
                             (block (adc_in (dev s)) (10 * k + adc_pos (dev s)) 10)))
              110 10 n
              (fun k => median_round_measure (adc_in (dev s))
                          (10 * k + adc_pos (dev s))))
    as (W & _ & _ & C).
  rewrite port_writes_app, conversions_app, W, C.
  split; [reflexivity |]. split; [| split; [reflexivity | exact P]].
  cbn [port_writes startup_events app]. apply medians_length.
Qed.

Lemma median_run_block_medians_witness :
  exists s' evs,
    MedianFilter.main 1
      (Mach MedianFilter.blank (reset_with [1; 9; 2; 8; 3; 7; 4; 6; 5; 5]))
    = Some (tt, s') /\
    trace (dev s') = [] ++ evs /\
    port_writes evs = [1; 2; 8; 3; 7; 4; 6; 5; 5; 5].
Proof.
  destruct (median_run_block_medians 1
              (Mach MedianFilter.blank (reset_with [1; 9; 2; 8; 3; 7; 4; 6; 5; 5]))
              eq_refl)
    as (s' & evs & E & T & W & _).
  exists s', evs. split; [exact E |]. split; [exact T |]. exact W.
Defined.

(** X3.  Time spent waiting: start-up waits 100 us once; each round of
    the first program waits 5 * 1 + 10 = 15 ms, each round of the second
    10 * 1 + 10 * 10 = 110 ms.  A run of [n] rounds therefore spends
    [15 * n] ms, respectively [110 * n] ms, in [delay_ms]. *)
Theorem run_time_spent (n : nat) :
  (forall s : MovingAverage.state,
     adc8 (dev s) ->
     exists s' evs,
       MovingAverage.main n s = Some (tt, s') /\
       trace (dev s') = trace (dev s) ++ evs /\
       busy_us evs = 100 /\
       busy_ms evs = 15 * Z.of_nat n) /\
  (forall s : MedianFilter.state,
     length (MedianFilter.voltage (locals s)) = 12%nat ->
     exists s' evs,
       MedianFilter.main n s = Some (tt, s') /\
       trace (dev s') = trace (dev s) ++ evs /\
       busy_us evs = 100 /\
       busy_ms evs = 110 * Z.of_nat n).
Proof.
  split.
  - intros s H8. destruct (average_main_trace n s H8) as (s' & E & _ & T).
    exists s'. eexists. split; [exact E |]. split; [exact T |].
    destruct (rounds_measure _ _ 15 5 n
                (fun k => average_round_measure (adc_in (dev s))
                            (5 * k + adc_pos (dev s))))
      as (_ & M & U & _).
    rewrite busy_us_app, busy_ms_app, M, U. split; reflexivity.
  - intros s H12. destruct (median_main_trace n s H12) as (s' & E & _ & T).
    exists s'. eexists. split; [exact E |]. split; [exact T |].
    destruct (rounds_measure _ _ 110 10 n
                (fun k => median_round_measure (adc_in (dev s))
                            (10 * k + adc_pos (dev s))))
      as (_ & M & U & _).
    rewrite busy_us_app, busy_ms_app, M, U. split; reflexivity.
Qed.

Lemma run_time_spent_witness :
  (exists s' evs,
     MovingAverage.main 2
       (Mach MovingAverage.blank (reset_with [2; 4; 6; 8; 10; 10; 20; 30; 40; 50]))
     = Some (tt, s') /\
     trace (dev s') = [] ++ evs /\ busy_us evs = 100 /\ busy_ms evs = 15 * 2) /\
  (exists s' evs,
     MedianFilter.main 1
       (Mach MedianFilter.blank (reset_with [1; 9; 2; 8; 3; 7; 4; 6; 5; 5]))
     = Some (tt, s') /\
     trace (dev s') = [] ++ evs /\ busy_us evs = 100 /\ busy_ms evs = 110 * 1).
Proof.
  split.
  - apply (proj1 (run_time_spent 2)).
    apply adc8_replay. repeat constructor; unfold int8; lia.
  - apply (proj2 (run_time_spent 1)). reflexivity.
Defined.

End RunFacts.

(** ** What the filters do to a signal *)

Module FilterFacts.
Import Signal.

Lemma median_aab (a c : Z) : median a a c = a.
Proof. rewrite median_sum. lia. Qed.

Lemma median_aba (a b : Z) : median a b a = a.
Proof. rewrite median_sum. lia. Qed.

Lemma median_abb (a b : Z) : median a b b = b.
Proof. rewrite median_sum. lia. Qed.

Lemma median_sorted_down (a b c : Z) : a >= b -> b >= c -> median a b c = b.
Proof. intros Hab Hbc. rewrite median_sum. lia. Qed.

Lemma median_in (a b c : Z) : In (median a b c) [a; b; c].
Proof.
  pose proof (median_sum a b c) as E. cbn.
  destruct (Z.le_gt_cases a b), (Z.le_gt_cases b c), (Z.le_gt_cases a c);
    (left; lia) || (right; left; lia) || (right; right; left; lia).
Qed.

Lemma triplet_medians_in (w : list Z) (m : Z) :
  In m (MedianFilter.triplet_medians w) -> In m w.
Proof.
  induction w as [| a w IH]; [intros [] |].
  destruct w as [| b [| c w]]; [intros [] | intros [] |].
  intros [<- | H].
  - pose proof (median_in a b c) as I. cbn in I |- *. tauto.
  - right. apply IH. exact H.
Qed.

Lemma last_in (xs : list Z) (x d : Z) : In (List.last (x :: xs) d) (x :: xs).
Proof.
  revert x. induction xs as [| y xs IH]; intros x; [left; reflexivity |].
  right. apply IH.
Qed.

Lemma padded_in (xs : list Z) (m : Z) : In m (MedianFilter.padded xs) -> In m xs.
Proof.
  destruct xs as [| x xs]; [intros [] |].
  unfold MedianFilter.padded. intros [<- | H]; [left; reflexivity |].
  apply in_app_or in H. destruct H as [H | [<- | []]]; [exact H |].
  apply last_in.
Qed.

Lemma total_between (lo hi : Z) (xs : list Z) :
  Forall (fun x => lo <= x <= hi) xs ->
  lo * Z.of_nat (length xs) <= total xs <= hi * Z.of_nat (length xs).
Proof.
  induction 1 as [| x xs Hx _ IH]; [cbn; lia |].
  change (total (x :: xs)) with (x + total xs).
  cbn [length]. lia.
Qed.

Lemma average_round_ok (s : MovingAverage.state) :
  adc8 (dev s) ->
  exists s',
    MovingAverage.loop_body s = Some (tt, s') /\
    locals s' = MovingAverage.Vars (total (upcoming (dev s) 5))
                                   (mean5 (upcoming (dev s) 5)) 5 /\
    port_d (dev s') = mean5 (upcoming (dev s) 5) /\
    pin_c0 (dev s') = true /\
    trace (dev s') = trace (dev s) ++ average_round (upcoming (dev s) 5).
Proof.
  intros H8. pose proof (MovingAverageFacts.loop_body_ok s H8) as E.
  cbv zeta in E. eexists. split; [exact E |].
  cbn [locals dev port_d pin_c0 trace]. repeat split; reflexivity.
Qed.

Lemma median_round_writes (xs : list Z) :
  port_writes (median_round xs)
  = MedianFilter.triplet_medians (MedianFilter.padded xs).
Proof.
  unfold median_round. rewrite port_writes_app.
  rewrite (proj2 (proj2 (proj2 (RunFacts.reads_measure xs)))).
  exact (proj2 (proj2 (proj2 (RunFacts.emissions_measure _)))).
Qed.

(** X4.  The byte the first program writes lies between the least and
    the greatest of the five samples it was computed from: whatever
    bounds hold for all five hold for the mean.  It is an 8-bit value,
    and a block of five equal samples is written back unchanged. *)
Theorem mean_within_sample_range (s : MovingAverage.state) (lo hi : Z)
    (H8 : adc8 (dev s))
    (Hr : Forall (fun x => lo <= x <= hi) (upcoming (dev s) 5)) :
  exists s' evs v,
    MovingAverage.loop_body s = Some (tt, s') /\
    trace (dev s') = trace (dev s) ++ evs /\
    port_writes evs = [v] /\
    lo <= v <= hi /\
    int8 v /\
    (lo = hi -> v = lo).
Proof.
  destruct (average_round_ok s H8) as (s' & E & _ & _ & _ & T).
  exists s', (average_round (upcoming (dev s) 5)), (mean5 (upcoming (dev s) 5)).
  split; [exact E |]. split; [exact T |].
  split; [exact (proj1 (RunFacts.average_round_measure (adc_in (dev s))
                          (adc_pos (dev s)))) |].
  pose proof (total_upcoming_bounds (dev s) 5 H8) as B.
  pose proof (total_between lo hi _ Hr) as R.
  change (length (upcoming (dev s) 5)) with 5%nat in R.
  pose proof (udiv5_bounds (total (upcoming (dev s) 5)) ltac:(lia)) as Q.
  unfold udiv in Q. unfold mean5, int8. lia.
Qed.

Lemma mean_within_sample_range_witness :
  exists s' evs v,
    MovingAverage.loop_body
      (Mach MovingAverage.blank (reset_with [12; 15; 11; 14; 13])) = Some (tt, s') /\
    trace (dev s') = [] ++ evs /\
    port_writes evs = [v] /\
    11 <= v <= 15.
Proof.
  destruct (mean_within_sample_range
              (Mach MovingAverage.blank (reset_with [12; 15; 11; 14; 13])) 11 15)
    as (s' & evs & v & E & T & W & R & _).
  - apply adc8_replay. repeat constructor; unfold int8; lia.
  - change (Forall (fun x => 11 <= x <= 15) [12; 15; 11; 14; 13]).
    repeat (apply List.Forall_cons; [lia |]). apply List.Forall_nil.
  - exists s', evs, v. repeat split; try assumption; lia.
Defined.

(** X5.  The second program never invents a value: every byte written
    in a round is one of the ten samples read in that round.  With an
    8-bit ADC every byte written is an 8-bit value. *)
Theorem median_outputs_are_samples (s : MedianFilter.state)
    (H12 : length (MedianFilter.voltage (locals s)) = 12%nat) :
  exists s' evs,
    MedianFilter.loop_body s = Some (tt, s') /\
    trace (dev s') = trace (dev s) ++ evs /\
    (forall m, In m (port_writes evs) -> In m (upcoming (dev s) 10)) /\
    (adc8 (dev s) -> Forall int8 (port_writes evs)).
Proof.
  destruct (RunFacts.median_round_ok s H12) as (s' & E & _ & _ & _ & _ & T).
  exists s', (median_round (upcoming (dev s) 10)).
  split; [exact E |]. split; [exact T |].
  rewrite median_round_writes.
  assert (I : forall m,
             In m (MedianFilter.triplet_medians
                     (MedianFilter.padded (upcoming (dev s) 10))) ->
             In m (upcoming (dev s) 10)).
  { intros m H. apply padded_in, triplet_medians_in. exact H. }
  split; [exact I |].
  intros H8. apply List.Forall_forall. intros m H.
  apply I in H. unfold upcoming in H. apply in_map_iff in H.
  destruct H as (k & <- & _). apply H8.
Qed.

Lemma median_outputs_are_samples_witness :
  exists s' evs,
    MedianFilter.loop_body
      (Mach MedianFilter.blank (reset_with [1; 9; 2; 8; 3; 7; 4; 6; 5; 5]))
    = Some (tt, s') /\
    trace (dev s') = [] ++ evs /\
    forall m, In m (port_writes evs) -> In m [1; 9; 2; 8; 3; 7; 4; 6; 5; 5].
Proof.
  destruct (median_outputs_are_samples
              (Mach MedianFilter.blank (reset_with [1; 9; 2; 8; 3; 7; 4; 6; 5; 5]))
              eq_refl)
    as (s' & evs & E & T & I & _).
  exists s', evs. split; [exact E |]. split; [exact T |]. exact I.
Defined.

Lemma upcoming_10 (h : hw) :
  upcoming h 10
  = [adc_in h (0 + adc_pos h)%nat; adc_in h (1 + adc_pos h)%nat;
     adc_in h (2 + adc_pos h)%nat; adc_in h (3 + adc_pos h)%nat;
     adc_in h (4 + adc_pos h)%nat; adc_in h (5 + adc_pos h)%nat;
     adc_in h (6 + adc_pos h)%nat; adc_in h (7 + adc_pos h)%nat;
     adc_in h (8 + adc_pos h)%nat; adc_in h (9 + adc_pos h)%nat].
Proof. reflexivity. Qed.

(** X6.  The edges pass through: because the window repeats the first
    and the last sample, the first byte written in a round is the first
    sample and the tenth byte is the tenth sample, whatever their
    neighbours are. *)
Theorem median_edges_pass_through (s : MedianFilter.state)
    (H12 : length (MedianFilter.voltage (locals s)) = 12%nat) :
  exists s' evs,
    MedianFilter.loop_body s = Some (tt, s') /\
    trace (dev s') = trace (dev s) ++ evs /\
    length (port_writes evs) = 10%nat /\
    nth 0 (port_writes evs) 0 = nth 0 (upcoming (dev s) 10) 0 /\
    nth 9 (port_writes evs) 0 = nth 9 (upcoming (dev s) 10) 0.
Proof.
  destruct (RunFacts.median_round_ok s H12) as (s' & E & _ & _ & _ & _ & T).
  exists s', (median_round (upcoming (dev s) 10)).
  split; [exact E |]. split; [exact T |].
  rewrite median_round_writes, upcoming_10.
  cbn [MedianFilter.triplet_medians MedianFilter.padded app List.last nth length].
  rewrite median_aab, median_abb. repeat split; reflexivity.
Qed.

Lemma median_edges_pass_through_witness :
  exists s' evs,
    MedianFilter.loop_body
      (Mach MedianFilter.blank (reset_with [200; 9; 2; 8; 3; 7; 4; 6; 5; 100]))
    = Some (tt, s') /\
    trace (dev s') = [] ++ evs /\
    nth 0 (port_writes evs) 0 = 200 /\
    nth 9 (port_writes evs) 0 = 100.
Proof.
  destruct (median_edges_pass_through
              (Mach MedianFilter.blank (reset_with [200; 9; 2; 8; 3; 7; 4; 6; 5; 100]))
              eq_refl)
    as (s' & evs & E & T & _ & F & L).
  exists s', evs. repeat split; assumption.
Defined.

(** X7.  A single outlier away from the edges is removed: when nine of
    the ten samples of a round equal [c] and the remaining one, at
    position 2 to 9 of the round, is anything else, all ten bytes
    written are [c]. *)
Theorem median_removes_inner_spike (s : MedianFilter.state) (c z : Z) (j : nat)
    (H12 : length (MedianFilter.voltage (locals s)) = 12%nat)
    (Hj : (1 <= j <= 8)%nat)
    (Hxs : upcoming (dev s) 10 = repeat c j ++ z :: repeat c (9 - j)) :
  exists s' evs,
    MedianFilter.loop_body s = Some (tt, s') /\
    trace (dev s') = trace (dev s) ++ evs /\
    port_writes evs = repeat c 10.
Proof.
  destruct (RunFacts.median_round_ok s H12) as (s' & E & _ & _ & _ & _ & T).
  exists s', (median_round (upcoming (dev s) 10)).
  split; [exact E |]. split; [exact T |].
  rewrite median_round_writes, Hxs.
  destruct j as [| [| [| [| [| [| [| [| [| j]]]]]]]]]; try lia;
    cbn [MedianFilter.triplet_medians MedianFilter.padded repeat app List.last Nat.sub];
    rewrite ?median_aab, ?median_aba, ?median_abb; reflexivity.
Qed.

Lemma median_removes_inner_spike_witness :
  exists s' evs,
    MedianFilter.loop_body
      (Mach MedianFilter.blank (reset_with [7; 7; 7; 250; 7; 7; 7; 7; 7; 7]))
    = Some (tt, s') /\
    trace (dev s') = [] ++ evs /\
    port_writes evs = [7; 7; 7; 7; 7; 7; 7; 7; 7; 7].
Proof.
  refine (median_removes_inner_spike
            (Mach MedianFilter.blank (reset_with [7; 7; 7; 250; 7; 7; 7; 7; 7; 7]))
            7 250 3 eq_refl _ eq_refl).
  lia.
Defined.

(** X8.  A block that never turns is reproduced: when the ten samples
    of a round are non-decreasing, or non-increasing, the ten bytes
    written are the ten samples themselves, in order. *)
Theorem median_keeps_monotone_block (s : MedianFilter.state)
    (H12 : length (MedianFilter.voltage (locals s)) = 12%nat)
    (Hm : Sorted Z.le (upcoming (dev s) 10) \/ Sorted Z.ge (upcoming (dev s) 10)) :
  exists s' evs,
    MedianFilter.loop_body s = Some (tt, s') /\
    trace (dev s') = trace (dev s) ++ evs /\
    port_writes evs = upcoming (dev s) 10.
Proof.
  destruct (RunFacts.median_round_ok s H12) as (s' & E & _ & _ & _ & _ & T).
  exists s', (median_round (upcoming (dev s) 10)).
  split; [exact E |]. split; [exact T |].
  rewrite median_round_writes. rewrite upcoming_10 in Hm |- *.
  cbn [MedianFilter.triplet_medians MedianFilter.padded app List.last].
  cbn [Nat.add] in Hm |- *.
  destruct Hm as [Hm | Hm]; MedianFilterFacts.sorted_inv.
  - rewrite !median_sorted by lia. reflexivity.
  - rewrite !median_sorted_down by lia. reflexivity.
Qed.

Lemma median_keeps_monotone_block_witness :
  exists s' evs,
    MedianFilter.loop_body
      (Mach MedianFilter.blank (reset_with [90; 80; 80; 70; 50; 50; 50; 20; 10; 0]))
    = Some (tt, s') /\
    trace (dev s') = [] ++ evs /\
    port_writes evs = [90; 80; 80; 70; 50; 50; 50; 20; 10; 0].
Proof.
  refine (median_keeps_monotone_block
            (Mach MedianFilter.blank (reset_with [90; 80; 80; 70; 50; 50; 50; 20; 10; 0]))
            eq_refl _).
  right. change (Sorted Z.ge [90; 80; 80; 70; 50; 50; 50; 20; 10; 0]).
  repeat (apply Sorted_cons; [| first [ apply HdRel_nil | apply HdRel_cons; lia ]]).
  apply Sorted_nil.
Defined.

(** X9.  A round of the second program carries nothing over: two
    machines that are about to read the same ten samples perform the
    same events and end with the same array, whatever their variables,
    their array, the port and the pin held before. *)
Theorem median_round_forgets_history (s t : MedianFilter.state)
    (Hs : length (MedianFilter.voltage (locals s)) = 12%nat)
    (Ht : length (MedianFilter.voltage (locals t)) = 12%nat)
    (Hx : upcoming (dev s) 10 = upcoming (dev t) 10) :
  exists s' t' evs,
    MedianFilter.loop_body s = Some (tt, s') /\
    MedianFilter.loop_body t = Some (tt, t') /\
    trace (dev s') = trace (dev s) ++ evs /\
    trace (dev t') = trace (dev t) ++ evs /\
    MedianFilter.voltage (locals s') = MedianFilter.voltage (locals t').
Proof.
  destruct (RunFacts.median_round_ok s Hs) as (s' & Es & _ & Vs & _ & _ & Ts).
  destruct (RunFacts.median_round_ok t Ht) as (t' & Et & _ & Vt & _ & _ & Tt).
  exists s', t', (median_round (upcoming (dev s) 10)).
  split; [exact Es |]. split; [exact Et |]. split; [exact Ts |].
  split; [rewrite Hx; exact Tt |]. rewrite Vs, Vt, Hx. reflexivity.
Qed.

Lemma median_round_forgets_history_witness :
  exists s' t' evs,
    MedianFilter.loop_body
      (Mach MedianFilter.blank (reset_with [1; 9; 2; 8; 3; 7; 4; 6; 5; 5]))
    = Some (tt, s') /\
    MedianFilter.loop_body
      (Mach (MedianFilter.Vars 77 (repeat 255 12) 33 [])
            (MkHw (replay [1; 9; 2; 8; 3; 7; 4; 6; 5; 5]) 0 99 true []))
    = Some (tt, t') /\
    trace (dev s') = [] ++ evs /\
    trace (dev t') = [] ++ evs /\
    MedianFilter.voltage (locals s') = MedianFilter.voltage (locals t').
Proof.
  exact (median_round_forgets_history
           (Mach MedianFilter.blank (reset_with [1; 9; 2; 8; 3; 7; 4; 6; 5; 5]))
           (Mach (MedianFilter.Vars 77 (repeat 255 12) 33 [])
                 (MkHw (replay [1; 9; 2; 8; 3; 7; 4; 6; 5; 5]) 0 99 true []))
           eq_refl eq_refl eq_refl).
Defined.

(** X10.  A round of the first program carries nothing over either:
    two machines that are about to read the same five samples perform
    the same events and end with the same variables, port byte and pin
    level, whatever [sum_voltage], [avg_voltage], [i], the port and the
    pin held before. *)
Theorem average_round_forgets_history (s t : MovingAverage.state)
    (Hs : adc8 (dev s)) (Ht : adc8 (dev t))
    (Hx : upcoming (dev s) 5 = upcoming (dev t) 5) :
  exists s' t' evs,
    MovingAverage.loop_body s = Some (tt, s') /\
    MovingAverage.loop_body t = Some (tt, t') /\
    trace (dev s') = trace (dev s) ++ evs /\
    trace (dev t') = trace (dev t) ++ evs /\
    locals s' = locals t' /\
    port_d (dev s') = port_d (dev t') /\
    pin_c0 (dev s') = pin_c0 (dev t').
Proof.
  destruct (average_round_ok s Hs) as (s' & Es & Ls & Ds & Ps & Ts).
  destruct (average_round_ok t Ht) as (t' & Et & Lt & Dt & Pt & Tt).
  exists s', t', (average_round (upcoming (dev s) 5)).
  split; [exact Es |]. split; [exact Et |]. split; [exact Ts |].
  split; [rewrite Hx; exact Tt |].
  rewrite Ls, Lt, Ds, Dt, Ps, Pt, Hx. repeat split; reflexivity.
Qed.

Lemma average_round_forgets_history_witness :
  exists s' t' evs,
    MovingAverage.loop_body
      (Mach MovingAverage.blank (reset_with [2; 4; 6; 8; 10])) = Some (tt, s') /\
    MovingAverage.loop_body
      (Mach (MovingAverage.Vars 65535 255 200)
            (MkHw (replay [2; 4; 6; 8; 10]) 0 99 true []))
    = Some (tt, t') /\
    trace (dev s') = [] ++ evs /\
    trace (dev t') = [] ++ evs /\
    locals s' = locals t'.
Proof.
  assert (H8 : Forall int8 [2; 4; 6; 8; 10])
    by (repeat constructor; unfold int8; lia).
  destruct (average_round_forgets_history
              (Mach MovingAverage.blank (reset_with [2; 4; 6; 8; 10]))
              (Mach (MovingAverage.Vars 65535 255 200)
                    (MkHw (replay [2; 4; 6; 8; 10]) 0 99 true []))
              (adc8_replay _ H8) (adc8_replay _ H8) eq_refl)
    as (s' & t' & evs & Es & Et & Ts & Tt & L & _).
  exists s', t', evs. repeat split; assumption.
Defined.

(** X11.  [median] is the middle of three by the usual formula,
    [max (min a b) (min (max a b) c)], and it is monotone: raising any
    of the three inputs never lowers the result. *)
Theorem median_monotone (a b c a' b' c' : Z)
    (Ha : a <= a') (Hb : b <= b') (Hc : c <= c') :
  median a b c = Z.max (Z.min a b) (Z.min (Z.max a b) c) /\
  median a b c <= median a' b' c'.
Proof.
  rewrite !median_sum. lia.
Qed.

Lemma median_monotone_witness :
  median 3 7 5 = Z.max (Z.min 3 7) (Z.min (Z.max 3 7) 5) /\
  median 3 7 5 <= median 4 7 9.
Proof.
  apply (median_monotone 3 7 5 4 7 9); lia.
Defined.

End FilterFacts.
